(** * Authentication callbacks of [server/lib/PassportSetup.js]

    A shallow embedding of the five callbacks that the module registers with
    Passport (the verify functions of the "local", "google" and "github"
    strategies, [serializeUser] and [deserializeUser]) together with the
    properties of the authentication core that the specification states
    about them.

    The callbacks are [async] functions whose [await]ed calls may throw; they
    are written here in a state-and-exception monad over a [World] that holds
    the user collection, a schedule of store faults, the source of
    randomness and a log of the calls performed. *)

From Stdlib Require Import List String NArith ZArith Bool Lia DecimalString.
Import ListNotations.
Open Scope string_scope.

(** ** Data *)

(** The value thrown by a failing store access. *)
Definition Err := string.

(** The internal identifier of a document ([_id], read as [user.id]). *)
Definition UserId := N.

(** A document of the [User] collection. Every attribute except the
    identifier may be missing. *)
Record UserRecord : Type := mkUser
  { _id : UserId
  ; name : option string
  ; email : option string
  ; password : option string
  ; googleId : option string
  ; githubId : option string }.

(** The part of an OAuth profile the callbacks read: [profile.id],
    [profile.displayName], [profile._json.name] and [profile._json.email]. *)
Record ProfileJson : Type := mkJson
  { json_name : option string
  ; json_email : option string }.

Record Profile : Type := mkProfile
  { profile_id : string
  ; displayName : option string
  ; _json : ProfileJson }.

(** The filter objects passed to [User.findOne]:
    [{ email }], [{ googleId: profile.id }] and [{ githubId: profile.id }]. *)
Inductive Query : Type :=
  | ByEmail (e : string)
  | ByGoogleId (g : string)
  | ByGithubId (g : string).

(** The object literal passed to [User.create]. *)
Record Fields : Type := mkFields
  { f_googleId : option string
  ; f_githubId : option string
  ; f_name : option string
  ; f_email : option string
  ; f_password : option string }.

(** What a run leaves behind in the log, in the order it happened. *)
Inductive Event : Type :=
  | EvFindOne (q : Query)
  | EvFindById (i : UserId)
  | EvCreate (f : Fields)
  | EvVerifyPassword (i : UserId) (submitted : string)
  | EvGenerateRandomPassword
  | EvConsoleLog (p : Profile)
  | EvFault (e : Err).

(** [records] is the collection; [faults] says, for each coming store access,
    whether it throws ([Some e]) or goes through ([None]; an exhausted
    schedule never throws); [entropy] counts the random passwords drawn. *)
Record World : Type := mkWorld
  { records : list UserRecord
  ; faults : list (option Err)
  ; entropy : N
  ; log : list Event }.

(** A second or third argument of [done]: [undefined] when the argument is
    left out, [null], [false], or a value. *)
Inductive JsVal (A : Type) : Type :=
  | JUndefined
  | JNull
  | JFalse
  | JValue (a : A).
Arguments JUndefined {A}.
Arguments JNull {A}.
Arguments JFalse {A}.
Arguments JValue {A} a.

(** One call [done(err, value, info)]; [info] is the [message] of the third
    argument when there is one. *)
Record DoneCall (A : Type) : Type := mkDone
  { d_err : option Err
  ; d_val : JsVal A
  ; d_info : option string }.
Arguments mkDone {A}.
Arguments d_err {A}.
Arguments d_val {A}.
Arguments d_info {A}.

(** ** The monad of the [async] bodies *)

Definition M (A : Type) : Type := World -> (Err + A) * World.

Definition ret {A} (a : A) : M A := fun w => (inr a, w).

Definition bind {A B} (m : M A) (k : A -> M B) : M B :=
  fun w =>
    match m w with
    | (inl e, w') => (inl e, w')
    | (inr a, w') => k a w'
    end.

(** [try { body } catch (err) { return handler(err) }] *)
Definition try_catch {A} (body : M A) (handler : Err -> A) : World -> A * World :=
  fun w =>
    match body w with
    | (inr a, w') => (a, w')
    | (inl e, w') => (handler e, w')
    end.

Declare Scope async_scope.
Delimit Scope async_scope with async.
Notation "x <- m ;; k" := (bind m (fun x => k))
  (at level 61, m at next level, right associativity) : async_scope.
Notation "m ;; k" := (bind m (fun _ => k))
  (at level 61, right associativity) : async_scope.
Open Scope async_scope.

Definition emit (ev : Event) : M unit :=
  fun w => (inr tt, mkWorld (records w) (faults w) (entropy w) (log w ++ [ev])).

(** One round trip to the database: it consumes the next entry of the fault
    schedule and throws when that entry is an error. *)
Definition store_access : M unit :=
  fun w =>
    match faults w with
    | Some e :: fs =>
        (inl e, mkWorld (records w) fs (entropy w) (log w ++ [EvFault e]))
    | None :: fs => (inr tt, mkWorld (records w) fs (entropy w) (log w))
    | [] => (inr tt, w)
    end.

Definition get_records : M (list UserRecord) := fun w => (inr (records w), w).

Definition put_records (l : list UserRecord) : M unit :=
  fun w => (inr tt, mkWorld l (faults w) (entropy w) (log w)).

(** ** The [User] model

    [../models/user.model.js] is not among the sources; the operations below
    follow the store interface and the Credential Verifier of the
    specification. *)

Definition opt_is (v : option string) (s : string) : bool :=
  match v with
  | Some x => String.eqb x s
  | None => false
  end.

Definition matches (q : Query) (u : UserRecord) : bool :=
  match q with
  | ByEmail e => opt_is (email u) e
  | ByGoogleId g => opt_is (googleId u) g
  | ByGithubId g => opt_is (githubId u) g
  end.

(** Modelled from the spec: [User.findOne], the store's [findByEmail] and
    [findByProviderId]: the first document matching the filter, or [null];
    [StoreError] when the store is unavailable. *)
Definition User_findOne (q : Query) : M (option UserRecord) :=
  emit (EvFindOne q) ;;
  store_access ;;
  l <- get_records ;;
  ret (find (matches q) l).

(** Modelled from the spec: [User.findById], the store's [findById]: the
    document with that internal identifier, or [null]. *)
Definition User_findById (i : UserId) : M (option UserRecord) :=
  emit (EvFindById i) ;;
  store_access ;;
  l <- get_records ;;
  ret (find (fun u => N.eqb (_id u) i) l).

(** An identifier no document of the collection carries. *)
Definition fresh_id (l : list UserRecord) : UserId :=
  N.succ (fold_right N.max 0%N (map _id l)).

Definition document (i : UserId) (f : Fields) : UserRecord :=
  mkUser i (f_name f) (f_email f) (f_password f) (f_googleId f) (f_githubId f).

(** Modelled from the spec: [User.create], the store's [create]: persists one
    new document holding the given fields under a unique internal identifier
    and returns it; no deduplication by email. *)
Definition User_create (f : Fields) : M UserRecord :=
  emit (EvCreate f) ;;
  store_access ;;
  l <- get_records ;;
  let u := document (fresh_id l) f in
  put_records (l ++ [u]) ;;
  ret u.

Section AuthCore.

(** The Credential Verifier [verify(storedCredential, submittedPassword)]
    and the generator behind [generateRandomPassword], indexed by the
    number of passwords drawn so far. *)
Variable verify : string -> string -> bool.
Variable random_password : N -> string.

(** Modelled from the spec: [user.verifyPassword], the Credential Verifier
    applied to the stored credential of the document; no side effect on
    the store. A document without a credential verifies no password. *)
Definition User_verifyPassword (u : UserRecord) (submitted : string) : M bool :=
  emit (EvVerifyPassword (_id u) submitted) ;;
  ret (match password u with
       | Some stored => verify stored submitted
       | None => false
       end).

(** Modelled from the spec: [User.prototype.generateRandomPassword], a
    freshly generated random value. *)
Definition User_generateRandomPassword : M string :=
  fun w =>
    (inr (random_password (entropy w)),
     mkWorld (records w) (faults w) (N.succ (entropy w))
             (log w ++ [EvGenerateRandomPassword])).

(** ** The callbacks of [PassportSetup.js] *)

(** [a || b] on an optional string: [undefined], [null] and the empty
    string are falsy. *)
Definition js_or (a : option string) (b : string) : string :=
  match a with
  | Some s => if String.eqb s "" then b else s
  | None => b
  end.

(** The verify callback of the "local" strategy (lines 36-50). *)
Definition LocalStrategy_verify (email password : string)
  : World -> DoneCall UserRecord * World :=
  try_catch
    (user <- User_findOne (ByEmail email) ;;
     match user with
     | None => ret (mkDone None JFalse (Some "Incorrect email."))
     | Some user =>
         isMatch <- User_verifyPassword user password ;;
         if negb isMatch
         then ret (mkDone None JFalse (Some "Incorrect password."))
         else ret (mkDone None (JValue user) None)
     end)
    (fun err => mkDone (Some err) JUndefined None).

(** The verify callback of the "google" strategy (lines 78-95). *)
Definition GoogleStrategy_verify (accessToken refreshToken : string)
  (profile : Profile) : World -> DoneCall UserRecord * World :=
  try_catch
    (user <- User_findOne (ByGoogleId (profile_id profile)) ;;
     user <- match user with
             | None =>
                 randomPassword <- User_generateRandomPassword ;;
                 User_create
                   {| f_googleId := Some (profile_id profile)
                    ; f_githubId := None
                    ; f_name := json_name (_json profile)
                    ; f_email := json_email (_json profile)
                    ; f_password := Some randomPassword |}
             | Some user => ret user
             end ;;
     ret (mkDone None (JValue user) None))
    (fun error => mkDone (Some error) JFalse None).

(** The verify callback of the "github" strategy (lines 123-141); the
    [console.log] comes before the [try]. *)
Definition GithubStrategy_verify (accessToken refreshToken : string)
  (profile : Profile) : World -> DoneCall UserRecord * World :=
  fun w =>
    let w0 := snd (emit (EvConsoleLog profile) w) in
    try_catch
      (user <- User_findOne (ByGithubId (profile_id profile)) ;;
       user <- match user with
               | None =>
                   randomPassword <- User_generateRandomPassword ;;
                   User_create
                     {| f_googleId := None
                      ; f_githubId := Some (profile_id profile)
                      ; f_name := displayName profile
                      ; f_email :=
                          Some (js_or (json_email (_json profile))
                                      "unknown@example.com")
                      ; f_password := Some randomPassword |}
               | Some user => ret user
               end ;;
       ret (mkDone None (JValue user) None))
      (fun error => mkDone (Some error) JFalse None)
      w0.

(** [passport.serializeUser] (lines 155-157). *)
Definition serializeUser (user : UserRecord) : DoneCall UserId :=
  mkDone None (JValue (_id user)) None.

(** [passport.deserializeUser] (lines 170-177): [done(null, user)] with
    whatever [findById] resolved to, [null] included. *)
Definition deserializeUser (id : UserId) : World -> DoneCall UserRecord * World :=
  try_catch
    (user <- User_findById id ;;
     ret (mkDone None
            (match user with Some u => JValue u | None => JNull end)
            None))
    (fun err => mkDone (Some err) JUndefined None).

End AuthCore.

(** ** The results as the specification names them *)

Inductive Provider : Type := Google | GitHub.

Inductive AuthError : Type :=
  | UserNotFound
  | InvalidCredentials
  | StoreError (e : Err)
  | Rejected (info : option string).

Inductive AuthResult : Type :=
  | Success (u : UserRecord)
  | Failure (e : AuthError).

(** What resolving a session identity can come to: a user, an error, or a
    request that goes on with no user at all. *)
Inductive SessionResult : Type :=
  | Resolved (u : UserRecord)
  | NoUser
  | SessionError (e : AuthError).

Definition classify (info : option string) : AuthError :=
  match info with
  | Some m =>
      if String.eqb m "Incorrect email." then UserNotFound
      else if String.eqb m "Incorrect password." then InvalidCredentials
      else Rejected info
  | None => Rejected info
  end.

(** How a strategy reads the arguments of [done]: an error first, then a
    falsy user as a failure carrying [info], otherwise success. *)
Definition verified (d : DoneCall UserRecord) : AuthResult :=
  match d_err d with
  | Some e => Failure (StoreError e)
  | None =>
      match d_val d with
      | JValue u => Success u
      | _ => Failure (classify (d_info d))
      end
  end.

(** How the session layer reads the arguments of the [done] of
    [deserializeUser]: an error first, then a falsy user as no user. *)
Definition deserialized (d : DoneCall UserRecord) : SessionResult :=
  match d_err d with
  | Some e => SessionError (StoreError e)
  | None =>
      match d_val d with
      | JValue u => Resolved u
      | _ => NoUser
      end
  end.

Definition authenticateLocal (verify : string -> string -> bool)
  (email password : string) (w : World) : AuthResult * World :=
  let (d, w') := LocalStrategy_verify verify email password w in (verified d, w').

Definition federated_verify (random_password : N -> string) (p : Provider)
  : string -> string -> Profile -> World -> DoneCall UserRecord * World :=
  match p with
  | Google => GoogleStrategy_verify random_password
  | GitHub => GithubStrategy_verify random_password
  end.

(** [providerId] is [profile.id]; the two tokens are handed over by the
    provider handshake and ignored by both callbacks. *)
Definition authenticateFederated (random_password : N -> string) (p : Provider)
  (accessToken refreshToken : string) (profile : Profile) (w : World)
  : AuthResult * World :=
  let (d, w') := federated_verify random_password p accessToken refreshToken profile w in
  (verified d, w').

Definition toSessionIdentity (user : UserRecord) : JsVal UserId :=
  d_val (serializeUser user).

Definition fromSessionIdentity (id : UserId) (w : World) : SessionResult * World :=
  let (d, w') := deserializeUser id w in (deserialized d, w').

(** ** Vocabulary of the statements *)

Definition provider_query (p : Provider) (providerId : string) : Query :=
  match p with
  | Google => ByGoogleId providerId
  | GitHub => ByGithubId providerId
  end.

Definition provider_identifier (p : Provider) (u : UserRecord) : option string :=
  match p with
  | Google => googleId u
  | GitHub => githubId u
  end.

(** Some document of the collection matches the filter. *)
Definition registered (q : Query) (l : list UserRecord) : bool :=
  existsb (matches q) l.

(** The data-model invariant on emails: no two documents carry the same
    email. *)
Fixpoint unique_emails (l : list UserRecord) : bool :=
  match l with
  | [] => true
  | u :: r =>
      match email u with
      | Some e => negb (registered (ByEmail e) r)
      | None => true
      end && unique_emails r
  end.

(** The data-model invariant on credentials: a password credential or at
    least one provider identifier. *)
Definition has_credential (u : UserRecord) : bool :=
  match password u, googleId u, githubId u with
  | None, None, None => false
  | _, _, _ => true
  end.

(** The outcome of the Credential Verifier on a document. *)
Definition password_verifies (verify : string -> string -> bool)
  (u : UserRecord) (submitted : string) : bool :=
  match password u with
  | Some stored => verify stored submitted
  | None => false
  end.

(** The error the [k]-th coming store access throws, if it throws. *)
Definition fault_at (k : nat) (w : World) : option Err :=
  match nth_error (faults w) k with
  | Some (Some e) => Some e
  | _ => None
  end.

Definition next_fault (w : World) : option Err := fault_at 0 w.

(** No access scheduled from here on throws. *)
Definition store_available (w : World) : bool :=
  forallb (fun f => match f with None => true | Some _ => false end) (faults w).

(** The events a run from [w] to [w'] appended to the log. *)
Definition events_since (w w' : World) : list Event :=
  skipn (List.length (log w)) (log w').

Definition is_verification (ev : Event) : bool :=
  match ev with
  | EvVerifyPassword _ _ => true
  | _ => false
  end.

Definition is_creation (ev : Event) : bool :=
  match ev with
  | EvCreate _ => true
  | _ => false
  end.

(** Some document of the collection has the identifier. *)
Definition known_id (i : UserId) (l : list UserRecord) : bool :=
  existsb (fun u => N.eqb (_id u) i) l.

(** The events that come before the lookup, and the fields handed to
    [User.create], per provider. *)
Definition prelude (p : Provider) (profile : Profile) : list Event :=
  match p with
  | Google => []
  | GitHub => [EvConsoleLog profile]
  end.

Definition created_fields (p : Provider) (profile : Profile)
  (randomPassword : string) : Fields :=
  match p with
  | Google =>
      {| f_googleId := Some (profile_id profile)
       ; f_githubId := None
       ; f_name := json_name (_json profile)
       ; f_email := json_email (_json profile)
       ; f_password := Some randomPassword |}
  | GitHub =>
      {| f_googleId := None
       ; f_githubId := Some (profile_id profile)
       ; f_name := displayName profile
       ; f_email := Some (js_or (json_email (_json profile)) "unknown@example.com")
       ; f_password := Some randomPassword |}
  end.

(** The data-model invariant on identifiers: no two documents carry the
    same [_id]. *)
Fixpoint unique_ids (l : list UserRecord) : bool :=
  match l with
  | [] => true
  | u :: r => negb (known_id (_id u) r) && unique_ids r
  end.

Definition is_lookup (ev : Event) : bool :=
  match ev with
  | EvFindOne _ => true
  | _ => false
  end.

Definition is_draw (ev : Event) : bool :=
  match ev with
  | EvGenerateRandomPassword => true
  | _ => false
  end.

(** ** The application file and [MongooseSetup.js] *)

(** The values a property read of the error, or the environment, can give.
    [VNum] holds the integers; [VOther] stands for every value not listed (a
    number that is not an integer, an infinity, an object, a function), all
    of them truthy, with the text a template literal shows for it. *)
Inductive JsValue : Type :=
  | VUndefined
  | VNull
  | VBool (b : bool)
  | VNum (z : Z)
  | VNaN
  | VStr (s : string)
  | VOther (text : string).

Definition truthy (v : JsValue) : bool :=
  match v with
  | VUndefined => false
  | VNull => false
  | VBool b => b
  | VNum z => negb (Z.eqb z 0)
  | VNaN => false
  | VStr s => negb (String.eqb s "")
  | VOther _ => true
  end.

(** [a || b] *)
Definition or_else (a b : JsValue) : JsValue :=
  if truthy a then a else b.






(** [const PORT = process.env.PORT || 5000]; a variable of the environment is
    a string or is not set. *)
Definition PORT (env_PORT : option string) : JsValue :=
  or_else (match env_PORT with Some s => VStr s | None => VUndefined end)
          (VNum 5000).

(** A value inside a template literal. *)
Definition template (v : JsValue) : string :=
  match v with
  | VUndefined => "undefined"
  | VNull => "null"
  | VBool true => "true"
  | VBool false => "false"
  | VNum z => NilZero.string_of_int (Z.to_int z)
  | VNaN => "NaN"
  | VStr s => s
  | VOther text => text
  end.

(** The line the [listen] callback logs (lines 26-28). *)
Definition listening_message (env_PORT : option string) : string :=
  "Server listening on: http://localhost:" ++ template (PORT env_PORT).

(** A settled promise, and a chain of [then] and [catch] callbacks that
    write to the console. *)
Inductive Settled (A : Type) : Type :=
  | PFulfilled (a : A)
  | PRejected (e : Err).
Arguments PFulfilled {A} a.
Arguments PRejected {A} e.

Inductive ConsoleLine : Type :=
  | LogText (s : string)
  | LogError (e : Err).

Definition Chain (A : Type) : Type :=
  list ConsoleLine -> Settled A * list ConsoleLine.

Definition promise_then {A B} (p : Chain A) (f : A -> Chain B) : Chain B :=
  fun c =>
    match p c with
    | (PFulfilled a, c') => f a c'
    | (PRejected e, c') => (PRejected e, c')
    end.

Definition promise_catch {A} (p : Chain A) (g : Err -> Chain A) : Chain A :=
  fun c =>
    match p c with
    | (PFulfilled a, c') => (PFulfilled a, c')
    | (PRejected e, c') => g e c'
    end.

Definition console_log (l : ConsoleLine) : Chain unit :=
  fun c => (PFulfilled tt, (c ++ [l])%list).

(** The chain built by the default export of [MongooseSetup.js]
    (lines 13-22); [connect] is how [mongoose.connect] settles. *)
Definition MongooseSetup (connect : Settled unit) : Chain unit :=
  promise_catch
    (promise_then (fun c => (connect, c))
       (fun _ => console_log (LogText "Connected to MongoDB!")))
    (fun error => console_log (LogError error)).

(** ** A small store to run the operations on *)

Definition demo_verify (stored submitted : string) : bool :=
  String.eqb stored ("hashed:" ++ submitted).

Definition demo_random (n : N) : string :=
  if N.eqb n 0%N then "k3Xq" else "p9Zt".

Definition alice : UserRecord :=
  mkUser 1%N (Some "Alice") (Some "alice@example.com") (Some "hashed:pw123") None None.

Definition carol : UserRecord :=
  mkUser 2%N (Some "Carol") (Some "carol@example.com") (Some "hashed:k3Xq")
    (Some "g-77") None.

Definition demo_world : World := mkWorld [alice; carol] [] 0%N [].

Definition bob_profile : Profile :=
  mkProfile "gh-1" (Some "Bob") (mkJson (Some "bob") None).

Definition carol_profile : Profile :=
  mkProfile "g-77" (Some "Carol R.") (mkJson (Some "Carol Renamed") (Some "new@example.com")).

Definition outage_world : World :=
  mkWorld [alice; carol] [Some "ECONNREFUSED"] 0%N [].

Definition flaky_world : World :=
  mkWorld [alice; carol] [None; Some "E11000"] 0%N [].

Definition erin_profile : Profile :=
  mkProfile "gh-9" (Some "Erin") (mkJson (Some "erin") (Some "erin@example.com")).

Definition dan_profile : Profile :=
  mkProfile "gh-2" (Some "Dan") (mkJson (Some "dan") None).

Definition bob_google_profile : Profile :=
  mkProfile "gh-1" (Some "Bob") (mkJson (Some "Bob G.") (Some "bob@example.com")).

(** ** Proof steps *)

(** Going through a hypothesis that an event is among a short list of events,
    keeping the case of the fault. *)
Ltac fault_in_log H :=
  simpl in H;
  repeat match type of H with
         | _ \/ _ => destruct H as [H|H]
         | False => destruct H
         | EvFault _ = EvFault _ => injection H as ->
         | _ = _ => discriminate H
         end.

(** A list of events that is written out ends with its last event. *)
Ltac last_event :=
  match goal with
  | |- exists before, ?evs = _ => exists (removelast evs); reflexivity
  end.

(** * Properties *)

(** ** Lists and lookups *)

Lemma skipn_length_app {A : Type} (l r : list A) :
  skipn (List.length l) (l ++ r)%list = r.
Proof.
  induction l as [|a l IH]; simpl; [reflexivity | exact IH].
Qed.

Lemma events_since_app (w : World) (rs : list UserRecord) (fs : list (option Err))
  (n : N) (evs : list Event) :
  events_since w (mkWorld rs fs n (log w ++ evs)) = evs.
Proof.
  unfold events_since; simpl. apply skipn_length_app.
Qed.

Lemma opt_is_true (v : option string) (s : string) :
  opt_is v s = true <-> v = Some s.
Proof.
  destruct v as [x|]; simpl.
  - rewrite String.eqb_eq. split; [intros ->; reflexivity | intros [= ->]; reflexivity].
  - split; discriminate.
Qed.

Lemma matches_provider (p : Provider) (providerId : string) (u : UserRecord) :
  matches (provider_query p providerId) u = true <->
  provider_identifier p u = Some providerId.
Proof.
  destruct p; simpl; apply opt_is_true.
Qed.

Lemma find_not_registered (q : Query) (l : list UserRecord) :
  registered q l = false -> find (matches q) l = None.
Proof.
  induction l as [|u l IH]; simpl; [reflexivity|].
  destruct (matches q u); simpl; [discriminate | exact IH].
Qed.

Lemma find_registered (q : Query) (l : list UserRecord) :
  registered q l = true ->
  exists u, find (matches q) l = Some u /\ In u l /\ matches q u = true.
Proof.
  induction l as [|u l IH]; simpl; [discriminate|].
  destruct (matches q u) eqn:Hm; simpl.
  - intros _. exists u. auto.
  - intros H. destruct (IH H) as (v & Hf & Hin & Hv). exists v. auto.
Qed.

Lemma registered_In (q : Query) (l : list UserRecord) (u : UserRecord) :
  In u l -> matches q u = true -> registered q l = true.
Proof.
  intros Hin Hm. apply existsb_exists. exists u. auto.
Qed.

(** Under the email invariant the lookup by email yields the one document
    that carries the email. *)
Lemma find_unique_email (l : list UserRecord) (u : UserRecord) (e : string) :
  unique_emails l = true -> In u l -> email u = Some e ->
  find (matches (ByEmail e)) l = Some u.
Proof.
  induction l as [|v l IH]; simpl; [intros _ []|].
  intros Hu Hin He. apply andb_true_iff in Hu as [Hv Hl].
  destruct Hin as [->|Hin].
  - rewrite He. simpl. rewrite String.eqb_refl. reflexivity.
  - destruct (opt_is (email v) e) eqn:Hm.
    + apply opt_is_true in Hm. rewrite Hm in Hv.
      rewrite (registered_In (ByEmail e) l u Hin) in Hv; [discriminate|].
      simpl. apply opt_is_true. exact He.
    + apply IH; assumption.
Qed.

Lemma fresh_id_above (l : list UserRecord) (u : UserRecord) :
  In u l -> (_id u < fresh_id l)%N.
Proof.
  unfold fresh_id. induction l as [|v l IH]; simpl; [intros []|].
  intros [->|Hin]; [lia|]. specialize (IH Hin). lia.
Qed.

Lemma fresh_id_new (l : list UserRecord) : ~ In (fresh_id l) (map _id l).
Proof.
  intros Hin. apply in_map_iff in Hin as (u & Hid & Hu).
  apply fresh_id_above in Hu. lia.
Qed.

Lemma store_available_fault_at (w : World) (k : nat) :
  store_available w = true -> fault_at k w = None.
Proof.
  unfold store_available, fault_at. intros H.
  destruct (nth_error (faults w) k) as [[e|]|] eqn:Hk; try reflexivity.
  apply nth_error_In in Hk.
  rewrite forallb_forall in H. specialize (H _ Hk). discriminate.
Qed.

(** ** What each operation of the model does *)

Lemma User_findOne_run (q : Query) (w : World) :
  User_findOne q w =
  match fault_at 0 w with
  | Some e =>
      (inl e, mkWorld (records w) (skipn 1 (faults w)) (entropy w)
                (log w ++ [EvFindOne q; EvFault e]))
  | None =>
      (inr (find (matches q) (records w)),
       mkWorld (records w) (skipn 1 (faults w)) (entropy w)
         (log w ++ [EvFindOne q]))
  end.
Proof.
  destruct w as [rs fs n l]. unfold User_findOne, bind, emit, store_access, fault_at.
  destruct fs as [|[e|] fs]; simpl; rewrite <- ?app_assoc; reflexivity.
Qed.

Lemma User_findById_run (i : UserId) (w : World) :
  User_findById i w =
  match fault_at 0 w with
  | Some e =>
      (inl e, mkWorld (records w) (skipn 1 (faults w)) (entropy w)
                (log w ++ [EvFindById i; EvFault e]))
  | None =>
      (inr (find (fun u => N.eqb (_id u) i) (records w)),
       mkWorld (records w) (skipn 1 (faults w)) (entropy w)
         (log w ++ [EvFindById i]))
  end.
Proof.
  destruct w as [rs fs n l]. unfold User_findById, bind, emit, store_access, fault_at.
  destruct fs as [|[e|] fs]; simpl; rewrite <- ?app_assoc; reflexivity.
Qed.

Lemma User_create_run (f : Fields) (w : World) :
  User_create f w =
  match fault_at 0 w with
  | Some e =>
      (inl e, mkWorld (records w) (skipn 1 (faults w)) (entropy w)
                (log w ++ [EvCreate f; EvFault e]))
  | None =>
      (inr (document (fresh_id (records w)) f),
       mkWorld (records w ++ [document (fresh_id (records w)) f])
         (skipn 1 (faults w)) (entropy w) (log w ++ [EvCreate f]))
  end.
Proof.
  destruct w as [rs fs n l]. unfold User_create, bind, emit, store_access, fault_at.
  destruct fs as [|[e|] fs]; simpl; rewrite <- ?app_assoc; reflexivity.
Qed.

(** ** What each callback does *)

Lemma LocalStrategy_verify_run (verify : string -> string -> bool)
  (e pw : string) (w : World) :
  LocalStrategy_verify verify e pw w =
  match fault_at 0 w with
  | Some err =>
      (mkDone (Some err) JUndefined None,
       mkWorld (records w) (skipn 1 (faults w)) (entropy w)
         (log w ++ [EvFindOne (ByEmail e); EvFault err]))
  | None =>
      match find (matches (ByEmail e)) (records w) with
      | None =>
          (mkDone None JFalse (Some "Incorrect email."),
           mkWorld (records w) (skipn 1 (faults w)) (entropy w)
             (log w ++ [EvFindOne (ByEmail e)]))
      | Some u =>
          (if password_verifies verify u pw
           then mkDone None (JValue u) None
           else mkDone None JFalse (Some "Incorrect password."),
           mkWorld (records w) (skipn 1 (faults w)) (entropy w)
             (log w ++ [EvFindOne (ByEmail e); EvVerifyPassword (_id u) pw]))
      end
  end.
Proof.
  unfold LocalStrategy_verify, try_catch, bind. rewrite User_findOne_run.
  destruct (fault_at 0 w) as [err|]; [reflexivity|].
  destruct (find (matches (ByEmail e)) (records w)) as [u|]; [|reflexivity].
  unfold User_verifyPassword, bind, emit, ret, password_verifies; simpl.
  rewrite <- app_assoc; simpl.
  destruct (match password u with Some stored => verify stored pw | None => false end);
    reflexivity.
Qed.

Lemma federated_verify_run (random_password : N -> string) (p : Provider)
  (accessToken refreshToken : string) (profile : Profile) (w : World) :
  let q := provider_query p (profile_id profile) in
  let f := created_fields p profile (random_password (entropy w)) in
  let u := document (fresh_id (records w)) f in
  federated_verify random_password p accessToken refreshToken profile w =
  match fault_at 0 w with
  | Some e =>
      (mkDone (Some e) JFalse None,
       mkWorld (records w) (skipn 1 (faults w)) (entropy w)
         (log w ++ prelude p profile ++ [EvFindOne q; EvFault e]))
  | None =>
      match find (matches q) (records w) with
      | Some found =>
          (mkDone None (JValue found) None,
           mkWorld (records w) (skipn 1 (faults w)) (entropy w)
             (log w ++ prelude p profile ++ [EvFindOne q]))
      | None =>
          match fault_at 1 w with
          | Some e =>
              (mkDone (Some e) JFalse None,
               mkWorld (records w) (skipn 2 (faults w)) (N.succ (entropy w))
                 (log w ++ prelude p profile ++
                  [EvFindOne q; EvGenerateRandomPassword; EvCreate f; EvFault e]))
          | None =>
              (mkDone None (JValue u) None,
               mkWorld (records w ++ [u]) (skipn 2 (faults w)) (N.succ (entropy w))
                 (log w ++ prelude p profile ++
                  [EvFindOne q; EvGenerateRandomPassword; EvCreate f]))
          end
      end
  end.
Proof.
  destruct w as [rs fs n l].
  destruct p; simpl;
    unfold GoogleStrategy_verify, GithubStrategy_verify, try_catch, bind,
      User_findOne, User_create, User_generateRandomPassword, emit, store_access,
      get_records, put_records, ret, fault_at;
    destruct fs as [|[e|] [|[e'|] fs]]; simpl;
    try (destruct (find _ rs) as [found|]; simpl);
    rewrite <- ?app_assoc; reflexivity.
Qed.

Lemma deserializeUser_run (i : UserId) (w : World) :
  deserializeUser i w =
  match fault_at 0 w with
  | Some e =>
      (mkDone (Some e) JUndefined None,
       mkWorld (records w) (skipn 1 (faults w)) (entropy w)
         (log w ++ [EvFindById i; EvFault e]))
  | None =>
      (mkDone None
         (match find (fun u => N.eqb (_id u) i) (records w) with
          | Some u => JValue u
          | None => JNull
          end) None,
       mkWorld (records w) (skipn 1 (faults w)) (entropy w)
         (log w ++ [EvFindById i]))
  end.
Proof.
  unfold deserializeUser, try_catch, bind. rewrite User_findById_run.
  destruct (fault_at 0 w); reflexivity.
Qed.

(** ** The specification's operations in terms of the callbacks *)

Lemma authenticateLocal_unfold (verify : string -> string -> bool)
  (e pw : string) (w : World) :
  authenticateLocal verify e pw w =
  (verified (fst (LocalStrategy_verify verify e pw w)),
   snd (LocalStrategy_verify verify e pw w)).
Proof.
  unfold authenticateLocal. destruct (LocalStrategy_verify verify e pw w); reflexivity.
Qed.

Lemma authenticateFederated_unfold (random_password : N -> string) (p : Provider)
  (accessToken refreshToken : string) (profile : Profile) (w : World) :
  authenticateFederated random_password p accessToken refreshToken profile w =
  (verified (fst (federated_verify random_password p accessToken refreshToken profile w)),
   snd (federated_verify random_password p accessToken refreshToken profile w)).
Proof.
  unfold authenticateFederated.
  destruct (federated_verify random_password p accessToken refreshToken profile w);
    reflexivity.
Qed.

Lemma fromSessionIdentity_unfold (i : UserId) (w : World) :
  fromSessionIdentity i w =
  (deserialized (fst (deserializeUser i w)), snd (deserializeUser i w)).
Proof.
  unfold fromSessionIdentity. destruct (deserializeUser i w); reflexivity.
Qed.

(** ** The scenarios of the specification, run *)

Example scenario_alice_logs_in :
  fst (authenticateLocal demo_verify "alice@example.com" "pw123" demo_world)
    = Success alice.
Proof. reflexivity. Qed.

Example scenario_alice_wrong_password :
  fst (LocalStrategy_verify demo_verify "alice@example.com" "wrong" demo_world)
    = mkDone None JFalse (Some "Incorrect password.").
Proof. reflexivity. Qed.

Example scenario_bob_unknown :
  fst (LocalStrategy_verify demo_verify "bob@example.com" "x" demo_world)
    = mkDone None JFalse (Some "Incorrect email.").
Proof. reflexivity. Qed.

(** A first GitHub login without an email creates the document with the
    placeholder; the second login with the same identifier finds it. *)
Example scenario_github_twice :
  let bob := mkUser 3%N (Some "Bob") (Some "unknown@example.com") (Some "k3Xq")
               None (Some "gh-1") in
  let r1 := authenticateFederated demo_random GitHub "t" "r" bob_profile demo_world in
  let r2 := authenticateFederated demo_random GitHub "t" "r" bob_profile (snd r1) in
  fst r1 = Success bob /\ fst r2 = Success bob /\
  records (snd r2) = [alice; carol; bob] /\
  log (snd r2) =
    [EvConsoleLog bob_profile; EvFindOne (ByGithubId "gh-1");
     EvGenerateRandomPassword;
     EvCreate (created_fields GitHub bob_profile "k3Xq");
     EvConsoleLog bob_profile; EvFindOne (ByGithubId "gh-1")].
Proof. repeat split; reflexivity. Qed.

(** A store that fails on the insertion: the error reaches [done] and the
    collection keeps its two documents. *)
Example scenario_create_fails :
  GithubStrategy_verify demo_random "t" "r" bob_profile flaky_world
    = (mkDone (Some "E11000") JFalse None,
       mkWorld [alice; carol] [] 1%N
         [EvConsoleLog bob_profile; EvFindOne (ByGithubId "gh-1");
          EvGenerateRandomPassword;
          EvCreate (created_fields GitHub bob_profile "k3Xq");
          EvFault "E11000"]).
Proof. reflexivity. Qed.

(** ** Local login *)

(** C1. For a document registered under an email (the email invariant of the
    data model holding, the store answering), the local login with a password
    that verifies against the stored credential calls [done(null, user)]
    with that document and succeeds, and the local login with a password
    that does not verify calls [done(null, false, "Incorrect password.")]
    and fails with [InvalidCredentials]. *)
Theorem local_login_registered (verify : string -> string -> bool)
  (w : World) (u : UserRecord) (e pw : string) :
  In u (records w) ->
  email u = Some e ->
  unique_emails (records w) = true ->
  next_fault w = None ->
  (password_verifies verify u pw = true ->
   fst (LocalStrategy_verify verify e pw w) = mkDone None (JValue u) None /\
   fst (authenticateLocal verify e pw w) = Success u) /\
  (password_verifies verify u pw = false ->
   fst (LocalStrategy_verify verify e pw w) =
     mkDone None JFalse (Some "Incorrect password.") /\
   fst (authenticateLocal verify e pw w) = Failure InvalidCredentials).
Proof.
  intros Hin He Hu Hf. unfold next_fault in Hf.
  rewrite authenticateLocal_unfold, LocalStrategy_verify_run, Hf.
  rewrite (find_unique_email _ _ _ Hu Hin He).
  split; intros ->; split; reflexivity.
Qed.

Lemma local_login_registered_witness :
  fst (authenticateLocal demo_verify "alice@example.com" "pw123" demo_world)
    = Success alice /\
  fst (authenticateLocal demo_verify "alice@example.com" "wrong" demo_world)
    = Failure InvalidCredentials.
Proof.
  split.
  - apply (local_login_registered demo_verify demo_world alice
             "alice@example.com" "pw123");
      [simpl; auto | reflexivity | reflexivity | reflexivity | reflexivity].
  - apply (local_login_registered demo_verify demo_world alice
             "alice@example.com" "wrong");
      [simpl; auto | reflexivity | reflexivity | reflexivity | reflexivity].
Defined.

(** C2. For an email no document of the store carries, the local login never
    invokes the Credential Verifier, whatever the password, and, the lookup
    being answered, calls [done(null, false, "Incorrect email.")]: it fails
    with [UserNotFound]. *)
Theorem local_login_unknown_email (verify : string -> string -> bool)
  (w : World) (e pw : string) :
  registered (ByEmail e) (records w) = false ->
  (forall ev,
     In ev (events_since w (snd (LocalStrategy_verify verify e pw w))) ->
     is_verification ev = false) /\
  (next_fault w = None ->
   fst (LocalStrategy_verify verify e pw w) =
     mkDone None JFalse (Some "Incorrect email.") /\
   fst (authenticateLocal verify e pw w) = Failure UserNotFound /\
   events_since w (snd (LocalStrategy_verify verify e pw w)) =
     [EvFindOne (ByEmail e)]).
Proof.
  intros Hr. apply find_not_registered in Hr. unfold next_fault.
  rewrite authenticateLocal_unfold, LocalStrategy_verify_run, Hr.
  destruct (fault_at 0 w) as [err|]; simpl; rewrite events_since_app; split.
  - intros ev [<-|[<-|[]]]; reflexivity.
  - discriminate.
  - intros ev [<-|[]]; reflexivity.
  - intros _. repeat split; reflexivity.
Qed.

Lemma local_login_unknown_email_witness :
  fst (authenticateLocal demo_verify "bob@example.com" "x" demo_world)
    = Failure UserNotFound /\
  forall ev,
    In ev (events_since demo_world
             (snd (LocalStrategy_verify demo_verify "bob@example.com" "x" demo_world))) ->
    is_verification ev = false.
Proof.
  destruct (local_login_unknown_email demo_verify demo_world "bob@example.com" "x")
    as [Hquiet Hfail]; [reflexivity|].
  split; [apply Hfail; reflexivity | exact Hquiet].
Defined.

(** C10. Whatever the email and the password, on success and on every
    failure, the local login leaves the collection as it found it and asks
    the store for no creation. *)
Theorem local_login_frame (verify : string -> string -> bool)
  (w : World) (e pw : string) :
  records (snd (LocalStrategy_verify verify e pw w)) = records w /\
  records (snd (authenticateLocal verify e pw w)) = records w /\
  forall ev,
    In ev (events_since w (snd (LocalStrategy_verify verify e pw w))) ->
    is_creation ev = false.
Proof.
  rewrite authenticateLocal_unfold, LocalStrategy_verify_run.
  destruct (fault_at 0 w) as [err|];
    [|destruct (find (matches (ByEmail e)) (records w)) as [u|]];
    simpl; rewrite events_since_app; repeat split; try reflexivity;
    intros ev Hev; simpl in Hev;
    repeat (destruct Hev as [<-|Hev]; [reflexivity|]); destruct Hev.
Qed.

(** ** Federated login *)

Lemma fault_at_skip (rs : list UserRecord) (fs : list (option Err)) (n : N)
  (l : list Event) (w : World) :
  fs = skipn 1 (faults w) ->
  fault_at 0 (mkWorld rs fs n l) = fault_at 1 w.
Proof.
  intros ->. unfold fault_at; simpl. destruct (faults w); reflexivity.
Qed.

(** C3. When a document already carries the provider identifier, two
    federated logins in a row with that identifier (whatever else the two
    profiles say) hand the same document to [done], so the same internal
    identifier, and the collection is the same after each of them. *)
Theorem federated_login_idempotent (random_password : N -> string) (p : Provider)
  (at1 rt1 at2 rt2 : string) (profile1 profile2 : Profile) (w : World) :
  registered (provider_query p (profile_id profile1)) (records w) = true ->
  profile_id profile2 = profile_id profile1 ->
  store_available w = true ->
  let r1 := federated_verify random_password p at1 rt1 profile1 w in
  let r2 := federated_verify random_password p at2 rt2 profile2 (snd r1) in
  exists u,
    In u (records w) /\
    provider_identifier p u = Some (profile_id profile1) /\
    fst r1 = mkDone None (JValue u) None /\
    fst r2 = mkDone None (JValue u) None /\
    verified (fst r1) = Success u /\
    verified (fst r2) = Success u /\
    records (snd r1) = records w /\
    records (snd r2) = records w.
Proof.
  intros Hr Hid Ha.
  destruct (find_registered _ _ Hr) as (u & Hfind & Hin & Hm).
  apply matches_provider in Hm.
  pose proof (store_available_fault_at w 0 Ha) as H0.
  pose proof (store_available_fault_at w 1 Ha) as H1.
  pose proof (federated_verify_run random_password p at1 rt1 profile1 w) as E1.
  cbv zeta in E1. rewrite H0, Hfind in E1.
  intros r1 r2. subst r2 r1. rewrite E1. cbn [fst snd].
  pose proof (federated_verify_run random_password p at2 rt2 profile2
                (mkWorld (records w) (skipn 1 (faults w)) (entropy w)
                   (log w ++ prelude p profile1 ++
                    [EvFindOne (provider_query p (profile_id profile1))]))) as E2.
  cbv zeta in E2. rewrite (fault_at_skip _ _ _ _ w eq_refl), H1 in E2.
  cbn [records] in E2. rewrite Hid, Hfind in E2. rewrite E2.
  exists u. repeat split; assumption || reflexivity.
Qed.

Lemma federated_login_idempotent_witness :
  exists u,
    fst (federated_verify demo_random Google "t1" "r1" carol_profile demo_world)
      = mkDone None (JValue u) None /\
    fst (federated_verify demo_random Google "t2" "r2" carol_profile
           (snd (federated_verify demo_random Google "t1" "r1" carol_profile demo_world)))
      = mkDone None (JValue u) None /\
    records (snd (federated_verify demo_random Google "t2" "r2" carol_profile
           (snd (federated_verify demo_random Google "t1" "r1" carol_profile demo_world))))
      = [alice; carol].
Proof.
  destruct (federated_login_idempotent demo_random Google "t1" "r1" "t2" "r2"
              carol_profile carol_profile demo_world)
    as (u & _ & _ & H1 & H2 & _ & _ & _ & H3);
    [reflexivity | reflexivity | reflexivity |].
  exists u. repeat split; assumption.
Defined.

(** C7. When the lookup by provider identifier finds a document, the
    federated login hands that very document to [done] and refreshes
    nothing: the collection after the call is the collection before it, no
    password is drawn and no creation is asked for, whatever name and email
    the profile carries. *)
Theorem federated_login_no_refresh (random_password : N -> string) (p : Provider)
  (accessToken refreshToken : string) (profile : Profile) (w : World)
  (u : UserRecord) :
  find (matches (provider_query p (profile_id profile))) (records w) = Some u ->
  let r := federated_verify random_password p accessToken refreshToken profile w in
  records (snd r) = records w /\
  entropy (snd r) = entropy w /\
  (forall ev, In ev (events_since w (snd r)) -> is_creation ev = false) /\
  (next_fault w = None ->
   fst r = mkDone None (JValue u) None /\
   fst (authenticateFederated random_password p accessToken refreshToken profile w)
     = Success u).
Proof.
  intros Hfind r. subst r. unfold next_fault.
  rewrite authenticateFederated_unfold.
  pose proof (federated_verify_run random_password p accessToken refreshToken
                profile w) as E.
  cbv zeta in E. rewrite Hfind in E. rewrite E.
  destruct (fault_at 0 w) as [e|]; cbn [fst snd records entropy];
    rewrite events_since_app; repeat split; try reflexivity; try discriminate;
    intros ev Hev; destruct p; simpl in Hev;
    repeat (destruct Hev as [<-|Hev]; [reflexivity|]); destruct Hev.
Qed.

Lemma federated_login_no_refresh_witness :
  records (snd (federated_verify demo_random Google "t" "r" carol_profile demo_world))
    = [alice; carol] /\
  fst (federated_verify demo_random Google "t" "r" carol_profile demo_world)
    = mkDone None (JValue carol) None.
Proof.
  destruct (federated_login_no_refresh demo_random Google "t" "r" carol_profile
              demo_world carol) as (Hrec & _ & _ & Hret); [reflexivity|].
  split; [exact Hrec | apply Hret; reflexivity].
Defined.

(** C4. When no document carries the provider identifier and the store
    answers, the federated login creates exactly one document, under an
    internal identifier that no earlier document has, and hands it to
    [done]. Its identifier for the provider is [profile.id]; for Google its
    name is [profile._json.name] and its email [profile._json.email]; for
    GitHub its name is [profile.displayName] and its email
    [profile._json.email] when the profile has a non-empty one, and
    ["unknown@example.com"] when that is missing (or empty). *)
Theorem federated_login_creates (random_password : N -> string) (p : Provider)
  (accessToken refreshToken : string) (profile : Profile) (w : World) :
  registered (provider_query p (profile_id profile)) (records w) = false ->
  store_available w = true ->
  let r := federated_verify random_password p accessToken refreshToken profile w in
  exists u,
    fst r = mkDone None (JValue u) None /\
    fst (authenticateFederated random_password p accessToken refreshToken profile w)
      = Success u /\
    records (snd r) = (records w ++ [u])%list /\
    ~ In (_id u) (map _id (records w)) /\
    List.length (filter is_creation (events_since w (snd r))) = 1 /\
    provider_identifier p u = Some (profile_id profile) /\
    match p with
    | Google =>
        name u = json_name (_json profile) /\
        email u = json_email (_json profile)
    | GitHub =>
        name u = displayName profile /\
        (forall m, json_email (_json profile) = Some m -> m <> "" ->
                   email u = Some m) /\
        (json_email (_json profile) = None -> email u = Some "unknown@example.com") /\
        (json_email (_json profile) = Some "" -> email u = Some "unknown@example.com")
    end.
Proof.
  intros Hr Ha r. subst r.
  apply find_not_registered in Hr.
  rewrite authenticateFederated_unfold.
  pose proof (federated_verify_run random_password p accessToken refreshToken
                profile w) as E.
  cbv zeta in E.
  rewrite (store_available_fault_at w 0 Ha), Hr, (store_available_fault_at w 1 Ha) in E.
  rewrite E. cbn [fst snd records].
  eexists. split; [reflexivity|]. split; [reflexivity|]. split; [reflexivity|].
  split; [apply fresh_id_new|].
  split; [rewrite events_since_app; destruct p; reflexivity|].
  destruct p; cbn [provider_identifier name email googleId githubId document
                     created_fields f_name f_email f_googleId f_githubId].
  - repeat split; reflexivity.
  - split; [reflexivity|]. split; [reflexivity|]. split; [|split].
    + intros m -> Hm. unfold js_or.
      apply String.eqb_neq in Hm. rewrite Hm. reflexivity.
    + intros ->. reflexivity.
    + intros ->. reflexivity.
Qed.

Lemma federated_login_creates_witness :
  (exists u,
     records (snd (federated_verify demo_random GitHub "t" "r" bob_profile demo_world))
       = [alice; carol; u] /\
     githubId u = Some "gh-1" /\
     name u = Some "Bob" /\
     email u = Some "unknown@example.com") /\
  (exists u,
     records (snd (federated_verify demo_random GitHub "t" "r" erin_profile demo_world))
       = [alice; carol; u] /\
     githubId u = Some "gh-9" /\
     email u = Some "erin@example.com").
Proof.
  split.
  - destruct (federated_login_creates demo_random GitHub "t" "r" bob_profile demo_world)
      as (u & _ & _ & Hrec & _ & _ & Hid & Hname & _ & Hmail & _);
      [reflexivity | reflexivity |].
    exists u.
    repeat split; [exact Hrec | exact Hid | exact Hname | apply Hmail; reflexivity].
  - destruct (federated_login_creates demo_random GitHub "t" "r" erin_profile demo_world)
      as (u & _ & _ & Hrec & _ & _ & Hid & _ & Hmail & _);
      [reflexivity | reflexivity |].
    exists u.
    repeat split; [exact Hrec | exact Hid | apply Hmail; [reflexivity | discriminate]].
Defined.

(** C9. Every document a callback adds to the collection carries a password
    credential and a provider identifier: what a federated login appends
    holds the identifier of the profile for its provider and the password
    just drawn from the generator, and the local login and the session
    lookup append nothing. *)
Theorem created_records_have_credentials (verify : string -> string -> bool)
  (random_password : N -> string) (w : World) :
  (forall p accessToken refreshToken profile,
     exists created,
       records (snd (federated_verify random_password p accessToken refreshToken
                       profile w))
         = (records w ++ created)%list /\
       Forall (fun u =>
                 has_credential u = true /\
                 provider_identifier p u = Some (profile_id profile) /\
                 password u = Some (random_password (entropy w)))
              created) /\
  (forall e pw, records (snd (LocalStrategy_verify verify e pw w)) = records w) /\
  (forall i, records (snd (deserializeUser i w)) = records w).
Proof.
  split; [|split].
  - intros p accessToken refreshToken profile.
    pose proof (federated_verify_run random_password p accessToken refreshToken
                  profile w) as E.
    cbv zeta in E. rewrite E.
    destruct (fault_at 0 w) as [e|];
      [|destruct (find _ (records w)) as [found|];
        [|destruct (fault_at 1 w) as [e|]]];
      cbn [snd records];
      try (exists []; split; [symmetry; apply app_nil_r | constructor]).
    eexists. split; [reflexivity|].
    constructor; [|constructor].
    destruct p; repeat split; reflexivity.
  - intros e pw. rewrite LocalStrategy_verify_run.
    destruct (fault_at 0 w) as [err|];
      [|destruct (find _ (records w)) as [u|]]; reflexivity.
  - intros i. rewrite deserializeUser_run.
    destruct (fault_at 0 w); reflexivity.
Qed.

(** ** Session identity *)

Lemma find_unknown_id (i : UserId) (l : list UserRecord) :
  known_id i l = false -> find (fun u => N.eqb (_id u) i) l = None.
Proof.
  induction l as [|u l IH]; simpl; [reflexivity|].
  destruct (N.eqb (_id u) i); simpl; [discriminate | exact IH].
Qed.

(** C5. When the session lookup of [id] resolves to a document,
    [serializeUser] on that document calls [done(null, id)]: the identity
    stored in the session is [id] again. *)
Theorem session_identity_round_trip (i : UserId) (w : World) (u : UserRecord) :
  fst (fromSessionIdentity i w) = Resolved u ->
  fst (deserializeUser i w) = mkDone None (JValue u) None /\
  serializeUser u = mkDone None (JValue i) None /\
  toSessionIdentity u = JValue i.
Proof.
  rewrite fromSessionIdentity_unfold, deserializeUser_run.
  destruct (fault_at 0 w) as [e|]; cbn [fst]; [discriminate|].
  destruct (find (fun u => N.eqb (_id u) i) (records w)) as [v|] eqn:Hfind;
    unfold deserialized; simpl; [|discriminate].
  intros [= ->]. apply find_some in Hfind as [_ Hid].
  apply N.eqb_eq in Hid.
  unfold toSessionIdentity, serializeUser; simpl. rewrite Hid.
  repeat split; reflexivity.
Qed.

Lemma session_identity_round_trip_witness :
  toSessionIdentity carol = JValue 2%N.
Proof.
  apply (session_identity_round_trip 2%N demo_world carol). reflexivity.
Defined.

(** C6, as the code has it. For an identifier no document carries, the store
    answering, [deserializeUser] calls [done(null, null)]: no error is
    passed, and the session lookup ends with no user rather than with
    [UserNotFound]. A failing store access is passed on as the error. *)
Theorem deserializeUser_unknown_id (i : UserId) (w : World) :
  known_id i (records w) = false ->
  (next_fault w = None ->
   fst (deserializeUser i w) = mkDone None JNull None /\
   fst (fromSessionIdentity i w) = NoUser /\
   fst (fromSessionIdentity i w) <> SessionError UserNotFound) /\
  (forall e, next_fault w = Some e ->
   fst (deserializeUser i w) = mkDone (Some e) JUndefined None /\
   fst (fromSessionIdentity i w) = SessionError (StoreError e)).
Proof.
  intros Hk. apply find_unknown_id in Hk. unfold next_fault.
  rewrite fromSessionIdentity_unfold, deserializeUser_run, Hk.
  split.
  - intros ->. repeat split; try reflexivity. discriminate.
  - intros e ->. split; reflexivity.
Qed.

Lemma deserializeUser_unknown_id_witness :
  fst (deserializeUser 7%N demo_world) = mkDone None JNull None /\
  fst (fromSessionIdentity 7%N demo_world) = NoUser /\
  fst (fromSessionIdentity 7%N outage_world) = SessionError (StoreError "ECONNREFUSED").
Proof.
  destruct (deserializeUser_unknown_id 7%N demo_world) as [Hnull _]; [reflexivity|].
  destruct (deserializeUser_unknown_id 7%N outage_world) as [_ Hfault]; [reflexivity|].
  destruct (Hnull eq_refl) as (H1 & H2 & _).
  destruct (Hfault "ECONNREFUSED" eq_refl) as (_ & H3).
  repeat split; assumption.
Defined.

(** ** Store failures *)

(** C8. In every flow, an error thrown by a store access during the run is
    the first argument of the [done] call, as thrown: the local login, both
    federated logins and the session lookup then end with [StoreError]
    carrying that error. *)
Theorem store_failure_surfaced (verify : string -> string -> bool)
  (random_password : N -> string) (w : World) (e : Err) :
  (forall email pw,
     In (EvFault e) (events_since w (snd (LocalStrategy_verify verify email pw w))) ->
     fst (LocalStrategy_verify verify email pw w) = mkDone (Some e) JUndefined None /\
     fst (authenticateLocal verify email pw w) = Failure (StoreError e)) /\
  (forall p accessToken refreshToken profile,
     In (EvFault e)
        (events_since w
           (snd (federated_verify random_password p accessToken refreshToken profile w))) ->
     fst (federated_verify random_password p accessToken refreshToken profile w)
       = mkDone (Some e) JFalse None /\
     fst (authenticateFederated random_password p accessToken refreshToken profile w)
       = Failure (StoreError e)) /\
  (forall i,
     In (EvFault e) (events_since w (snd (deserializeUser i w))) ->
     fst (deserializeUser i w) = mkDone (Some e) JUndefined None /\
     fst (fromSessionIdentity i w) = SessionError (StoreError e)).
Proof.
  split; [|split].
  - intros email pw.
    rewrite authenticateLocal_unfold, LocalStrategy_verify_run.
    destruct (fault_at 0 w) as [err|];
      [|destruct (find _ (records w)) as [u|]];
      cbn [fst snd]; rewrite events_since_app; intros Hev; fault_in_log Hev.
    split; reflexivity.
  - intros p accessToken refreshToken profile.
    rewrite authenticateFederated_unfold.
    pose proof (federated_verify_run random_password p accessToken refreshToken
                  profile w) as E.
    cbv zeta in E. rewrite E.
    destruct (fault_at 0 w) as [err|];
      [|destruct (find _ (records w)) as [found|];
        [|destruct (fault_at 1 w) as [err|]]];
      cbn [fst snd]; rewrite events_since_app; destruct p; intros Hev;
      fault_in_log Hev; split; reflexivity.
  - intros i.
    rewrite fromSessionIdentity_unfold, deserializeUser_run.
    destruct (fault_at 0 w) as [err|];
      cbn [fst snd]; rewrite events_since_app; intros Hev; fault_in_log Hev.
    split; reflexivity.
Qed.

Lemma store_failure_surfaced_witness :
  fst (authenticateLocal demo_verify "alice@example.com" "pw123" outage_world)
    = Failure (StoreError "ECONNREFUSED") /\
  fst (authenticateFederated demo_random GitHub "t" "r" bob_profile flaky_world)
    = Failure (StoreError "E11000") /\
  fst (fromSessionIdentity 1%N outage_world)
    = SessionError (StoreError "ECONNREFUSED").
Proof.
  destruct (store_failure_surfaced demo_verify demo_random outage_world "ECONNREFUSED")
    as (Hlocal & _ & Hsession).
  destruct (store_failure_surfaced demo_verify demo_random flaky_world "E11000")
    as (_ & Hfed & _).
  split; [|split].
  - apply Hlocal. vm_compute. auto.
  - apply Hfed. vm_compute. auto 10.
  - apply Hsession. vm_compute. auto.
Defined.

(** * Further properties of the callbacks *)

(** ** Lookups in collection order *)

Lemma find_after_miss {A : Type} (f : A -> bool) (l r : list A) :
  find f l = None -> find f (l ++ r)%list = find f r.
Proof.
  induction l as [|a l IH]; simpl; [reflexivity|].
  destruct (f a); [discriminate | exact IH].
Qed.

Lemma fault_at_skipn (rs : list UserRecord) (n : nat) (k : nat) (m : N)
  (l : list Event) (w : World) :
  fault_at k (mkWorld rs (skipn n (faults w)) m l) = fault_at (n + k) w.
Proof.
  unfold fault_at; simpl. rewrite nth_error_skipn. reflexivity.
Qed.

(** ** Local login: what a success means *)

(** X1. Whenever the local verify callback hands a user to [done], it hands
    no error with it, the user is a document of the collection, the document
    carries the submitted email, and the submitted password verified against
    the credential the document stores. *)
Theorem local_login_sound (verify : string -> string -> bool)
  (w : World) (e pw : string) (u : UserRecord) :
  d_val (fst (LocalStrategy_verify verify e pw w)) = JValue u ->
  d_err (fst (LocalStrategy_verify verify e pw w)) = None /\
  In u (records w) /\
  email u = Some e /\
  exists stored, password u = Some stored /\ verify stored pw = true.
Proof.
  rewrite LocalStrategy_verify_run.
  destruct (fault_at 0 w) as [err|]; [discriminate|].
  destruct (find (matches (ByEmail e)) (records w)) as [v|] eqn:Hfind;
    [|discriminate].
  destruct (password_verifies verify v pw) eqn:Hpw; cbn [fst d_val d_err];
    [|discriminate].
  intros [= ->]. apply find_some in Hfind as [Hin Hm].
  simpl in Hm. apply opt_is_true in Hm.
  unfold password_verifies in Hpw.
  destruct (password u) as [stored|]; [|discriminate].
  repeat split; try assumption. exists stored. auto.
Qed.

Lemma local_login_sound_witness :
  email alice = Some "alice@example.com" /\
  exists stored, password alice = Some stored /\ demo_verify stored "pw123" = true.
Proof.
  destruct (local_login_sound demo_verify demo_world "alice@example.com" "pw123" alice)
    as (_ & _ & Hmail & Hpw); [reflexivity|].
  split; assumption.
Defined.

(** X2. When some document carries the email and the store answers, the
    local login never answers "Incorrect email.": it asks for one lookup and
    one password verification, on a document of the collection that carries
    the email, and hands that document to [done] when the password verifies
    against it and answers "Incorrect password." when it does not. *)
Theorem local_login_known_email (verify : string -> string -> bool)
  (w : World) (e pw : string) :
  registered (ByEmail e) (records w) = true ->
  next_fault w = None ->
  exists u,
    In u (records w) /\
    email u = Some e /\
    fst (LocalStrategy_verify verify e pw w) =
      (if password_verifies verify u pw
       then mkDone None (JValue u) None
       else mkDone None JFalse (Some "Incorrect password.")) /\
    d_info (fst (LocalStrategy_verify verify e pw w)) <> Some "Incorrect email." /\
    events_since w (snd (LocalStrategy_verify verify e pw w)) =
      [EvFindOne (ByEmail e); EvVerifyPassword (_id u) pw].
Proof.
  intros Hr Hf. unfold next_fault in Hf.
  destruct (find_registered _ _ Hr) as (u & Hfind & Hin & Hm).
  simpl in Hm. apply opt_is_true in Hm.
  exists u.
  rewrite LocalStrategy_verify_run, Hf, Hfind. cbn [fst snd].
  rewrite events_since_app.
  repeat split; try assumption; try reflexivity.
  destruct (password_verifies verify u pw); simpl; discriminate.
Qed.

Lemma local_login_known_email_witness :
  exists u,
    email u = Some "carol@example.com" /\
    d_info (fst (LocalStrategy_verify demo_verify "carol@example.com" "guess"
                   demo_world)) <> Some "Incorrect email." /\
    events_since demo_world
      (snd (LocalStrategy_verify demo_verify "carol@example.com" "guess" demo_world))
      = [EvFindOne (ByEmail "carol@example.com"); EvVerifyPassword (_id u) "guess"].
Proof.
  destruct (local_login_known_email demo_verify demo_world "carol@example.com" "guess")
    as (u & _ & Hmail & _ & Hinfo & Hev); [reflexivity | reflexivity |].
  exists u. repeat split; assumption.
Defined.

(** ** Federated login: what a success means, and how logins compose *)

(** X3. Whenever a federated verify callback hands a user to [done], it
    hands no error with it, and the user is a document of the collection as
    the call leaves it whose identifier for the provider is [profile.id]. *)
Theorem federated_login_sound (random_password : N -> string) (p : Provider)
  (accessToken refreshToken : string) (profile : Profile) (w : World)
  (u : UserRecord) :
  let r := federated_verify random_password p accessToken refreshToken profile w in
  d_val (fst r) = JValue u ->
  d_err (fst r) = None /\
  In u (records (snd r)) /\
  provider_identifier p u = Some (profile_id profile).
Proof.
  intros r. subst r.
  pose proof (federated_verify_run random_password p accessToken refreshToken
                profile w) as E.
  cbv zeta in E. rewrite E.
  destruct (fault_at 0 w) as [e|]; [discriminate|].
  destruct (find _ (records w)) as [found|] eqn:Hfind.
  - cbn [fst snd d_val d_err records]. intros [= ->].
    apply find_some in Hfind as [Hin Hm]. apply matches_provider in Hm. auto.
  - destruct (fault_at 1 w) as [e|]; [discriminate|].
    cbn [fst snd d_val d_err records]. intros [= <-].
    repeat split; [apply in_or_app; right; left; reflexivity|].
    destruct p; reflexivity.
Qed.

Lemma federated_login_sound_witness :
  In carol (records (snd (federated_verify demo_random Google "t" "r" carol_profile
                            demo_world))) /\
  googleId carol = Some "g-77".
Proof.
  destruct (federated_login_sound demo_random Google "t" "r" carol_profile demo_world
              carol) as (_ & Hin & Hid); [reflexivity|].
  split; assumption.
Defined.

Lemma created_matches (p : Provider) (profile : Profile) (i : UserId) (pw : string) :
  matches (provider_query p (profile_id profile))
    (document i (created_fields p profile pw)) = true.
Proof.
  destruct p; simpl; apply String.eqb_refl.
Qed.

Lemma created_other_provider (p p' : Provider) (profile : Profile) (i : UserId)
  (pw : string) (x : string) :
  p <> p' ->
  matches (provider_query p' x) (document i (created_fields p profile pw)) = false.
Proof.
  destruct p, p'; intros Hne; try reflexivity; exfalso; apply Hne; reflexivity.
Qed.

(** X4. A first federated login with an identifier no document carries
    creates the document, and the next login with the same identifier finds
    it: both hand the same document to [done], the collection has grown by
    that one document, and a single password has been drawn. *)
Theorem federated_login_create_then_find (random_password : N -> string)
  (p : Provider) (at1 rt1 at2 rt2 : string) (profile1 profile2 : Profile)
  (w : World) :
  registered (provider_query p (profile_id profile1)) (records w) = false ->
  profile_id profile2 = profile_id profile1 ->
  store_available w = true ->
  let r1 := federated_verify random_password p at1 rt1 profile1 w in
  let r2 := federated_verify random_password p at2 rt2 profile2 (snd r1) in
  exists u,
    fst r1 = mkDone None (JValue u) None /\
    fst r2 = mkDone None (JValue u) None /\
    records (snd r2) = (records w ++ [u])%list /\
    entropy (snd r2) = N.succ (entropy w).
Proof.
  intros Hr Hid Ha. apply find_not_registered in Hr.
  pose proof (federated_verify_run random_password p at1 rt1 profile1 w) as E1.
  cbv zeta in E1.
  rewrite (store_available_fault_at w 0 Ha), Hr, (store_available_fault_at w 1 Ha) in E1.
  intros r1 r2. subst r2 r1. rewrite E1. cbn [fst snd].
  set (u := document (fresh_id (records w))
              (created_fields p profile1 (random_password (entropy w)))) in *.
  match goal with
  | |- context [federated_verify _ _ _ _ _ ?w1] =>
      pose proof (federated_verify_run random_password p at2 rt2 profile2 w1) as E2
  end.
  cbv zeta in E2. rewrite !fault_at_skipn in E2.
  rewrite (store_available_fault_at w (2 + 0) Ha) in E2.
  cbn [records] in E2. rewrite Hid, (find_after_miss _ _ [u] Hr) in E2.
  cbn [find] in E2.
  assert (Hm : matches (provider_query p (profile_id profile1)) u = true)
    by apply created_matches.
  rewrite Hm in E2. rewrite E2. cbn [fst snd records entropy].
  exists u. repeat split; reflexivity.
Qed.

Lemma federated_login_create_then_find_witness :
  exists u,
    fst (federated_verify demo_random GitHub "t1" "r1" bob_profile demo_world)
      = mkDone None (JValue u) None /\
    fst (federated_verify demo_random GitHub "t2" "r2" bob_profile
           (snd (federated_verify demo_random GitHub "t1" "r1" bob_profile demo_world)))
      = mkDone None (JValue u) None.
Proof.
  destruct (federated_login_create_then_find demo_random GitHub "t1" "r1" "t2" "r2"
              bob_profile bob_profile demo_world) as (u & H1 & H2 & _);
    [reflexivity | reflexivity | reflexivity |].
  exists u. split; assumption.
Defined.

(** X5. The two providers never share a document: after a first login
    through one provider has created its document, a first login through
    the other provider does not find it, whatever identifier, name and email
    the two profiles carry, and creates a second document under another
    internal identifier. *)
Theorem federated_login_per_provider (random_password : N -> string)
  (p p' : Provider) (at1 rt1 at2 rt2 : string) (profile profile' : Profile)
  (w : World) :
  p <> p' ->
  registered (provider_query p (profile_id profile)) (records w) = false ->
  registered (provider_query p' (profile_id profile')) (records w) = false ->
  store_available w = true ->
  let r1 := federated_verify random_password p at1 rt1 profile w in
  let r2 := federated_verify random_password p' at2 rt2 profile' (snd r1) in
  exists u1 u2,
    fst r1 = mkDone None (JValue u1) None /\
    fst r2 = mkDone None (JValue u2) None /\
    records (snd r2) = (records w ++ [u1; u2])%list /\
    _id u1 <> _id u2 /\
    provider_identifier p' u1 = None /\
    provider_identifier p u2 = None.
Proof.
  intros Hne Hr Hr' Ha.
  apply find_not_registered in Hr. apply find_not_registered in Hr'.
  pose proof (federated_verify_run random_password p at1 rt1 profile w) as E1.
  cbv zeta in E1.
  rewrite (store_available_fault_at w 0 Ha), Hr, (store_available_fault_at w 1 Ha) in E1.
  intros r1 r2. subst r2 r1. rewrite E1. cbn [fst snd].
  set (u1 := document (fresh_id (records w))
               (created_fields p profile (random_password (entropy w)))) in *.
  match goal with
  | |- context [federated_verify _ _ _ _ _ ?w1] =>
      pose proof (federated_verify_run random_password p' at2 rt2 profile' w1) as E2
  end.
  cbv zeta in E2. rewrite !fault_at_skipn in E2.
  rewrite (store_available_fault_at w (2 + 0) Ha),
    (store_available_fault_at w (2 + 1) Ha) in E2.
  cbn [records entropy] in E2. rewrite (find_after_miss _ _ [u1] Hr') in E2.
  cbn [find] in E2.
  assert (Hm : matches (provider_query p' (profile_id profile')) u1 = false)
    by (apply created_other_provider; exact Hne).
  rewrite Hm in E2. rewrite E2. cbn [fst snd records].
  eexists u1, _. split; [reflexivity|]. split; [reflexivity|].
  split; [rewrite <- app_assoc; reflexivity|].
  split.
  - cbn [_id document].
    assert (Hin : In u1 (records w ++ [u1])%list)
      by (apply in_or_app; right; left; reflexivity).
    apply fresh_id_above in Hin. cbn [_id document] in Hin |- *.
    unfold u1 in Hin |- *. cbn [_id document] in Hin |- *. lia.
  - destruct p, p'; try (exfalso; apply Hne; reflexivity); split; reflexivity.
Qed.

Lemma federated_login_per_provider_witness :
  exists u1 u2,
    records (snd (federated_verify demo_random Google "t2" "r2" bob_google_profile
                    (snd (federated_verify demo_random GitHub "t1" "r1" bob_profile
                            demo_world))))
      = [alice; carol; u1; u2] /\
    _id u1 <> _id u2.
Proof.
  destruct (federated_login_per_provider demo_random GitHub Google "t1" "r1" "t2" "r2"
              bob_profile bob_google_profile demo_world)
    as (u1 & u2 & _ & _ & Hrec & Hid & _);
    [discriminate | reflexivity | reflexivity | reflexivity |].
  exists u1, u2. split; assumption.
Defined.

(** ** The placeholder email of the GitHub flow *)

(** X6. Every document the GitHub callback adds to the collection has an
    email, and never the empty one: the email of the profile when the
    profile has a non-empty one, ["unknown@example.com"] otherwise. *)
Theorem github_created_email_present (random_password : N -> string)
  (accessToken refreshToken : string) (profile : Profile) (w : World) :
  exists created,
    records (snd (GithubStrategy_verify random_password accessToken refreshToken
                    profile w))
      = (records w ++ created)%list /\
    Forall (fun u =>
              exists m,
                email u = Some m /\ m <> "" /\
                (json_email (_json profile) = Some m \/
                 (m = "unknown@example.com" /\
                  (json_email (_json profile) = None \/
                   json_email (_json profile) = Some ""))))
           created.
Proof.
  pose proof (federated_verify_run random_password GitHub accessToken refreshToken
                profile w) as E.
  cbv zeta in E. change (federated_verify random_password GitHub)
    with (GithubStrategy_verify random_password) in E.
  rewrite E.
  destruct (fault_at 0 w) as [e|];
    [|destruct (find _ (records w)) as [found|];
      [|destruct (fault_at 1 w) as [e|]]];
    cbn [snd records];
    try (exists []; split; [symmetry; apply app_nil_r | constructor]).
  eexists. split; [reflexivity|].
  constructor; [|constructor].
  cbn [email document created_fields f_email].
  eexists. split; [reflexivity|].
  unfold js_or. destruct (json_email (_json profile)) as [s|].
  - destruct (String.eqb s "") eqn:Hs.
    + apply String.eqb_eq in Hs. subst s.
      split; [discriminate|]. right. auto.
    + apply String.eqb_neq in Hs. split; [exact Hs|]. left. reflexivity.
  - split; [discriminate|]. right. auto.
Qed.

(** X7. The GitHub callback asks for the placeholder email again without
    looking for it: after a first GitHub login whose profile carries no
    email has created its document, a first login with another identifier
    and again no email, its lookup answered, asks the store to insert a
    document under ["unknown@example.com"], the email a document of the
    collection already carries, whatever the store then does with the
    request. *)
Theorem github_placeholder_requested_twice (random_password : N -> string)
  (at1 rt1 at2 rt2 : string) (profile1 profile2 : Profile) (w : World) :
  json_email (_json profile1) = None ->
  json_email (_json profile2) = None ->
  profile_id profile1 <> profile_id profile2 ->
  registered (ByGithubId (profile_id profile1)) (records w) = false ->
  registered (ByGithubId (profile_id profile2)) (records w) = false ->
  fault_at 0 w = None ->
  fault_at 1 w = None ->
  fault_at 2 w = None ->
  let r1 := GithubStrategy_verify random_password at1 rt1 profile1 w in
  let r2 := GithubStrategy_verify random_password at2 rt2 profile2 (snd r1) in
  exists u1 f2,
    fst r1 = mkDone None (JValue u1) None /\
    In u1 (records (snd r1)) /\
    email u1 = Some "unknown@example.com" /\
    In (EvCreate f2) (events_since (snd r1) (snd r2)) /\
    f_email f2 = Some "unknown@example.com" /\
    f_githubId f2 = Some (profile_id profile2) /\
    (forall q, In (EvFindOne q) (events_since (snd r1) (snd r2)) ->
               q = ByGithubId (profile_id profile2)).
Proof.
  intros Hm1 Hm2 Hne Hr1 Hr2 H0 H1 H2.
  apply find_not_registered in Hr1. apply find_not_registered in Hr2.
  pose proof (federated_verify_run random_password GitHub at1 rt1 profile1 w) as E1.
  cbv zeta in E1. change (federated_verify random_password GitHub)
    with (GithubStrategy_verify random_password) in E1.
  cbn [provider_query] in E1. rewrite H0, Hr1, H1 in E1.
  intros r1 r2. subst r2 r1. rewrite E1. cbn [fst snd].
  set (u1 := document (fresh_id (records w))
               (created_fields GitHub profile1 (random_password (entropy w)))) in *.
  match goal with
  | |- context [GithubStrategy_verify _ _ _ _ ?w1] =>
      pose proof (federated_verify_run random_password GitHub at2 rt2 profile2 w1) as E2
  end.
  cbv zeta in E2. change (federated_verify random_password GitHub)
    with (GithubStrategy_verify random_password) in E2.
  cbn [provider_query] in E2. rewrite !fault_at_skipn in E2.
  change (2 + 0) with 2 in E2. rewrite H2 in E2.
  cbn [records entropy] in E2. rewrite (find_after_miss _ _ [u1] Hr2) in E2.
  cbn [find] in E2.
  assert (Hm : matches (ByGithubId (profile_id profile2)) u1 = false).
  { simpl. apply String.eqb_neq. exact Hne. }
  rewrite Hm in E2. rewrite E2. clear E2.
  exists u1. eexists.
  split; [reflexivity|].
  split; [cbn [records]; apply in_or_app; right; left; reflexivity|].
  split; [unfold u1; simpl; rewrite Hm1; reflexivity|].
  destruct (fault_at (2 + 1) w) as [e|]; cbn [snd]; rewrite events_since_app;
    (split; [simpl; auto 6|]);
    (split; [simpl; rewrite Hm2; reflexivity|]);
    (split; [reflexivity|]);
    intros q Hq; simpl in Hq;
    repeat (destruct Hq as [Hq|Hq]; [try discriminate Hq|]);
    try (injection Hq as <-; reflexivity); try destruct Hq.
Qed.

Lemma github_placeholder_requested_twice_witness :
  exists f2,
    In (EvCreate f2)
       (events_since
          (snd (GithubStrategy_verify demo_random "t1" "r1" bob_profile demo_world))
          (snd (GithubStrategy_verify demo_random "t2" "r2" dan_profile
                  (snd (GithubStrategy_verify demo_random "t1" "r1" bob_profile
                          demo_world))))) /\
    f_email f2 = Some "unknown@example.com" /\
    registered (ByEmail "unknown@example.com")
      (records (snd (GithubStrategy_verify demo_random "t1" "r1" bob_profile
                       demo_world))) = true.
Proof.
  destruct (github_placeholder_requested_twice demo_random "t1" "r1" "t2" "r2"
              bob_profile dan_profile demo_world)
    as (u1 & f2 & _ & _ & _ & Hev & Hmail & _);
    [reflexivity | reflexivity | discriminate | reflexivity | reflexivity
    | reflexivity | reflexivity | reflexivity |].
  exists f2. repeat split; [exact Hev | exact Hmail].
Defined.

(** ** From a login to the session and back *)

Lemma known_id_In (i : UserId) (l : list UserRecord) :
  known_id i l = true -> In i (map _id l).
Proof.
  unfold known_id. intros H. apply existsb_exists in H as (u & Hin & Hu).
  apply N.eqb_eq in Hu. subst i. apply in_map. exact Hin.
Qed.

Lemma find_by_id_unique (l : list UserRecord) (u : UserRecord) :
  unique_ids l = true -> In u l ->
  find (fun v => N.eqb (_id v) (_id u)) l = Some u.
Proof.
  induction l as [|a l IH]; simpl; [intros _ []|].
  intros Hu Hin. apply andb_true_iff in Hu as [Ha Hl].
  destruct Hin as [->|Hin]; [rewrite N.eqb_refl; reflexivity|].
  destruct (N.eqb (_id a) (_id u)) eqn:Heq; [|apply IH; assumption].
  apply N.eqb_eq in Heq. rewrite Heq in Ha.
  assert (Hk : known_id (_id u) l = true).
  { apply existsb_exists. exists u. split; [exact Hin | apply N.eqb_refl]. }
  rewrite Hk in Ha. discriminate.
Qed.

Lemma unique_ids_snoc (l : list UserRecord) (u : UserRecord) :
  unique_ids l = true -> known_id (_id u) l = false ->
  unique_ids (l ++ [u]) = true.
Proof.
  induction l as [|a l IH]; simpl; [reflexivity|].
  intros Hu Hk. apply andb_true_iff in Hu as [Ha Hl].
  apply orb_false_iff in Hk as [Hau Hk].
  rewrite (IH Hl Hk), andb_true_r.
  unfold known_id in *. rewrite existsb_app. simpl.
  rewrite (N.eqb_sym (_id u) (_id a)), Hau. simpl orb at 2.
  rewrite orb_false_r. exact Ha.
Qed.

Lemma unique_ids_create (l : list UserRecord) (f : Fields) :
  unique_ids l = true -> unique_ids (l ++ [document (fresh_id l) f]) = true.
Proof.
  intros Hu. apply unique_ids_snoc; [exact Hu|].
  destruct (known_id (_id (document (fresh_id l) f)) l) eqn:Hk; [|reflexivity].
  apply known_id_In in Hk. exfalso. exact (fresh_id_new l Hk).
Qed.

(** X8. With unique internal identifiers in the collection, the user a
    login hands to [done] comes back from the session: the identifier
    [serializeUser] stores for it, given to [deserializeUser] on the store as
    the login left it (and answering), resolves to that same document. This
    holds for the federated logins, a document just created included, and
    for the local login. *)
Theorem login_then_session (verify : string -> string -> bool)
  (random_password : N -> string) (w : World) :
  unique_ids (records w) = true ->
  (forall p accessToken refreshToken profile u i,
     let r := federated_verify random_password p accessToken refreshToken profile w in
     d_val (fst r) = JValue u ->
     next_fault (snd r) = None ->
     d_val (serializeUser u) = JValue i ->
     fst (deserializeUser i (snd r)) = mkDone None (JValue u) None) /\
  (forall e pw u i,
     let r := LocalStrategy_verify verify e pw w in
     d_val (fst r) = JValue u ->
     next_fault (snd r) = None ->
     d_val (serializeUser u) = JValue i ->
     fst (deserializeUser i (snd r)) = mkDone None (JValue u) None).
Proof.
  intros Hu. split.
  - intros p accessToken refreshToken profile u i r. subst r.
    pose proof (federated_verify_run random_password p accessToken refreshToken
                  profile w) as E.
    cbv zeta in E. rewrite E. clear E.
    unfold next_fault, serializeUser. cbn [d_val].
    destruct (fault_at 0 w) as [e|]; [discriminate|].
    destruct (find _ (records w)) as [found|] eqn:Hfind;
      [|destruct (fault_at 1 w) as [e|]; [discriminate|]];
      cbn [fst snd d_val]; intros [= <-] Hf [= <-];
      rewrite deserializeUser_run, Hf; cbn [fst records].
    + apply find_some in Hfind as [Hin _].
      rewrite (find_by_id_unique _ _ Hu Hin). reflexivity.
    + match goal with
      | |- context [(records w ++ [document ?n ?f])%list] =>
          assert (Hin : In (document n f) (records w ++ [document n f])%list)
            by (apply in_or_app; right; left; reflexivity);
          pose proof (find_by_id_unique _ _ (unique_ids_create (records w) f Hu) Hin)
            as Hnew
      end.
      cbn [_id document] in Hnew. rewrite Hnew. reflexivity.
  - intros e pw u i r. subst r. rewrite LocalStrategy_verify_run.
    unfold next_fault, serializeUser. cbn [d_val].
    destruct (fault_at 0 w) as [err|]; [discriminate|].
    destruct (find _ (records w)) as [found|] eqn:Hfind; [|discriminate].
    destruct (password_verifies verify found pw); cbn [fst snd d_val];
      [|discriminate].
    intros [= <-] Hf [= <-]. rewrite deserializeUser_run, Hf. cbn [fst records].
    apply find_some in Hfind as [Hin _].
    rewrite (find_by_id_unique _ _ Hu Hin). reflexivity.
Qed.

Lemma login_then_session_witness :
  exists u,
    fst (federated_verify demo_random GitHub "t" "r" bob_profile demo_world)
      = mkDone None (JValue u) None /\
    fst (deserializeUser 3%N
           (snd (federated_verify demo_random GitHub "t" "r" bob_profile demo_world)))
      = mkDone None (JValue u) None.
Proof.
  destruct (login_then_session demo_verify demo_random demo_world) as [Hfed _];
    [reflexivity|].
  eexists. split; [reflexivity|].
  apply (Hfed GitHub "t" "r" bob_profile); reflexivity.
Defined.

(** ** One lookup, at most one insertion, no second try *)

Lemma find_none_not_registered (q : Query) (l : list UserRecord) :
  find (matches q) l = None -> registered q l = false.
Proof.
  induction l as [|u l IH]; simpl; [reflexivity|].
  destruct (matches q u); simpl; [discriminate | exact IH].
Qed.

(** X9. A federated login asks the store for exactly one lookup and at most
    one insertion, and draws a password exactly when it asks for the
    insertion; it asks for the insertion only after a lookup that was
    answered and found no document; a store error ends the run (it is the
    last event, nothing is tried again); at most two store accesses are
    used. *)
Theorem federated_login_access_discipline (random_password : N -> string)
  (p : Provider) (accessToken refreshToken : string) (profile : Profile)
  (w : World) :
  let r := federated_verify random_password p accessToken refreshToken profile w in
  let evs := events_since w (snd r) in
  List.length (filter is_lookup evs) = 1 /\
  List.length (filter is_creation evs) <= 1 /\
  List.length (filter is_draw evs) = List.length (filter is_creation evs) /\
  (filter is_creation evs <> [] ->
   next_fault w = None /\
   registered (provider_query p (profile_id profile)) (records w) = false) /\
  (forall e, In (EvFault e) evs -> exists before, evs = (before ++ [EvFault e])%list) /\
  exists k, k <= 2 /\ faults (snd r) = skipn k (faults w).
Proof.
  intros r evs. subst evs r.
  pose proof (federated_verify_run random_password p accessToken refreshToken
                profile w) as E.
  cbv zeta in E. rewrite E. clear E. unfold next_fault.
  destruct (fault_at 0 w) as [e|];
    [|destruct (find _ (records w)) as [found|] eqn:Hfind;
      [|destruct (fault_at 1 w) as [e|]]];
    cbn [snd faults]; rewrite events_since_app;
    (split; [destruct p; reflexivity|]);
    (split; [destruct p; simpl; lia|]);
    (split; [destruct p; reflexivity|]);
    (split; [|split]).
  - intros H. exfalso. apply H. destruct p; reflexivity.
  - intros e' Hev. destruct p; fault_in_log Hev; last_event.
  - exists 1. split; [lia | reflexivity].
  - intros H. exfalso. apply H. destruct p; reflexivity.
  - intros e' Hev. destruct p; fault_in_log Hev.
  - exists 1. split; [lia | reflexivity].
  - intros _. split; [reflexivity | apply find_none_not_registered; exact Hfind].
  - intros e' Hev. destruct p; fault_in_log Hev; last_event.
  - exists 2. split; [lia | reflexivity].
  - intros _. split; [reflexivity | apply find_none_not_registered; exact Hfind].
  - intros e' Hev. destruct p; fault_in_log Hev.
  - exists 2. split; [lia | reflexivity].
Qed.

(** * The application file and the database connection *)





(** X11. The line logged when the server listens names a port that is never
    empty: the value of the [PORT] variable when it is set and not empty,
    and [5000] when it is not set or set to the empty string. *)
Theorem listening_port (env_PORT : option string) :
  exists port,
    listening_message env_PORT = "Server listening on: http://localhost:" ++ port /\
    port <> "" /\
    match env_PORT with
    | Some s => if String.eqb s "" then port = "5000" else port = s
    | None => port = "5000"
    end.
Proof.
  unfold listening_message, PORT, or_else.
  destruct env_PORT as [s|]; cbn [truthy].
  - destruct (String.eqb s "") eqn:Hs; cbn [negb].
    + exists "5000". repeat split. discriminate.
    + exists s. repeat split. apply String.eqb_neq. exact Hs.
  - exists "5000". repeat split. discriminate.
Qed.

(** X12. However [mongoose.connect] settles, the chain of [MongooseSetup]
    settles fulfilled, never rejected, after adding exactly one line to the
    console and keeping the lines before it: the greeting when the
    connection succeeded, the error itself when it failed. *)
Theorem MongooseSetup_never_rejects (connect : Settled unit) (c : list ConsoleLine) :
  exists line,
    MongooseSetup connect c = (PFulfilled tt, (c ++ [line])%list) /\
    match connect with
    | PFulfilled _ => line = LogText "Connected to MongoDB!"
    | PRejected e => line = LogError e
    end.
Proof.
  unfold MongooseSetup, promise_catch, promise_then, console_log.
  destruct connect as [[]|e]; eexists; split; reflexivity.
Qed.
